(** * tc_decorator: declarative expansion of one test body into many named units

    A shallow embedding of [tc_decorator.py].  The decorators [tc],
    [common] and [options] stack argument layers on a function object; the
    outermost decorator [test] forms the cartesian product of the layers,
    builds one wrapper per resolved case and writes it into the enclosing
    scope.

    Python state is passed explicitly: decorating a function returns the
    new state of the function object, and the expansion takes and returns
    the dictionary of the enclosing scope ([frame_locals]), which the
    source finds two frames up the call stack.  Exceptions are the left
    summand of a sum type; a computation that raises returns the exception
    alone, without the state it had reached. *)

From Stdlib Require Import Ascii DecimalString DecimalNat.
From stdpp Require Import gmap strings list fin_maps.


(** ** Python values *)

(** The values that cases and options carry.  A [PyStr] is a sequence of
    characters with code points below 256; [range(n)] and tuples are the
    [PyList] of their elements. *)
#[warnings="-register-all"]
Inductive pyval :=
  | PyNone
  | PyBool (b : bool)
  | PyInt (n : Z)
  | PyStr (s : string)
  | PyList (l : list pyval).

(** A dictionary with string keys, such as [**kwargs]. *)
Abbreviation pydict := (gmap string pyval).

Inductive exn := KeyError | TypeError | ValueError.

(** Raising is [inl]; returning is [inr]. *)
#[global] Instance exn_ret : MRet (sum exn) := λ A x, inr x.
#[global] Instance exn_bind : MBind (sum exn) := λ A B k m,
  match m with
  | inl e => inl e
  | inr x => k x
  end.

Definition raise {A} (e : exn) : exn + A := inl e.

(** Iterating over a value, as [tuple(v)] and [for x in v] do: a string
    yields its characters, and a value that is not iterable raises
    [TypeError]. *)
Fixpoint chars (s : string) : list pyval :=
  match s with
  | EmptyString => []
  | String c s' => PyStr (String c EmptyString) :: chars s'
  end.

Definition py_iter (v : pyval) : exn + list pyval :=
  match v with
  | PyList l => inr l
  | PyStr s => inr (chars s)
  | _ => raise TypeError
  end.

(** ** Function objects *)

(** A function object: the slots [__name__] and [__doc__], the instance
    dictionary [__dict__], and the code run by a call with positional and
    keyword arguments.  The two layer stacks are attributes of the
    function in the source; here they are fields of their own and not
    entries of [__dict__], [None] standing for an absent attribute
    ([hasattr] false). *)
Record pyfunc (R : Type) := Function {
  __name__ : string;
  __doc__ : option string;
  __dict__ : pydict;
  tc_test_cases : option (list pydict);
  tc_additional_arguments : option (list (list pydict));
  __code__ : list pyval → pydict → exn + R
}.
Arguments Function {R}.
Arguments __name__ {R}.
Arguments __doc__ {R}.
Arguments __dict__ {R}.
Arguments tc_test_cases {R}.
Arguments tc_additional_arguments {R}.
Arguments __code__ {R}.

(** The enclosing scope: [frame_locals], from names to the units bound
    there by the expansion. *)
Abbreviation scope R := (gmap string (pyfunc R)).

(** [setattr(function, name, value)] for a name that is not a slot: the
    attribute is an entry of the instance dictionary. *)
Definition setattr {R} (function : pyfunc R) (name : string) (value : pyval)
    : pyfunc R :=
  Function (__name__ function) (__doc__ function)
           (<[name := value]> (__dict__ function))
           (tc_test_cases function) (tc_additional_arguments function)
           (__code__ function).

(** [functools.wraps(wrapped)] applied to a fresh [def] with the given
    code: the slots are assigned from [wrapped] and the fresh, empty
    [__dict__] is updated with the one of [wrapped], layer stacks
    included.  The attributes [__module__], [__qualname__],
    [__annotations__] and [__wrapped__], which nothing here reads, are
    left out. *)
Definition wraps {R} (wrapped : pyfunc R)
    (code : list pyval → pydict → exn + R) : pyfunc R :=
  Function (__name__ wrapped) (__doc__ wrapped)
           (__dict__ wrapped ∪ ∅)
           (tc_test_cases wrapped) (tc_additional_arguments wrapped)
           code.

(** [function.__name__ = name]. *)
Definition set_name {R} (function : pyfunc R) (name : string) : pyfunc R :=
  Function name (__doc__ function) (__dict__ function)
           (tc_test_cases function) (tc_additional_arguments function)
           (__code__ function).

(** Assigning a layer stack, [Some], and deleting it, [None]. *)
Definition set_tc_test_cases {R} (function : pyfunc R)
    (stack : option (list pydict)) : pyfunc R :=
  Function (__name__ function) (__doc__ function) (__dict__ function)
           stack (tc_additional_arguments function) (__code__ function).

Definition set_tc_additional_arguments {R} (function : pyfunc R)
    (stack : option (list (list pydict))) : pyfunc R :=
  Function (__name__ function) (__doc__ function) (__dict__ function)
           (tc_test_cases function) stack (__code__ function).

(** ** Names and doc strings *)

(** [format(index, '03d')]: the decimal digits, padded with zeros on the
    left to a width of at least three. *)
Definition str_of_nat (n : nat) : string :=
  NilEmpty.string_of_uint (Nat.to_uint n).

Fixpoint zeros (k : nat) : string :=
  match k with
  | O => EmptyString
  | S k' => String "0"%char (zeros k')
  end.

Definition format_03d (n : nat) : string :=
  let digits := str_of_nat n in
  zeros (3 - String.length digits) +:+ digits.

(** The character class [[a-zA-Z0-9_]]. *)
Definition is_safe (c : ascii) : bool :=
  let n := nat_of_ascii c in
  (((97 <=? n) && (n <=? 122)) || ((65 <=? n) && (n <=? 90))
   || ((48 <=? n) && (n <=? 57)) || (n =? 95))%nat.

(** [re.sub("[^a-zA-Z0-9_]+", "_", s)], scanning left to right:
    [in_match] says that the previous character was part of the match
    being replaced, whose underscore has been written already. *)
Fixpoint re_sub_unsafe (in_match : bool) (s : string) : string :=
  match s with
  | EmptyString => EmptyString
  | String c s' =>
      if is_safe c then String c (re_sub_unsafe false s')
      else if in_match then re_sub_unsafe true s'
      else String "_"%char (re_sub_unsafe true s')
  end.

Definition to_safe_name (s : string) : string := re_sub_unsafe false s.

Definition get_custom_name_func {R} (description : string)
    : pyfunc R → nat → pydict → string :=
  λ testcase_func param_num param,
    let prefix :=
      if String.prefix "test" description then EmptyString else "test_" in
    prefix +:+ to_safe_name description +:+ "__case_" +:+ format_03d param_num.

Definition get_custom_doc_func {R} (description : string) (nb_testcases : nat)
    : pyfunc R → nat → pydict → string :=
  λ testcase_func param_num params,
    description +:+ " (" +:+ format_03d param_num +:+ "/"
      +:+ str_of_nat nb_testcases +:+ ") parameters: " +:+ EmptyString.

(** ** Composition *)

(** [result.update(dictionary)] for each dictionary in turn: the bindings
    of the dictionary replace those of the result. *)
Definition merge_dicts (dicts : list pydict) : pydict :=
  foldl (λ result dictionary, dictionary ∪ result) ∅ dicts.

(** Values are immutable here, so a deep copy is the value itself. *)
Definition deepcopy (d : pydict) : pydict := d.

(** [itertools.product] over the pools, as its documentation defines it:
    [result = [[]]], then for each pool
    [result = [x + [y] for x in result for y in pool]]. *)
Definition extend {A} (result : list (list A)) (pool : list A)
    : list (list A) :=
  x ← result; y ← pool; [x ++ [y]].

Definition product {A} (pools : list (list A)) : list (list A) :=
  foldl extend [[]] pools.

(** ** Materializing the units *)

(** The loop [for tag in tags: setattr(new_function, tag, True)]. *)
Definition tag_all {R} (new_function : pyfunc R) (tags : list string)
    : pyfunc R :=
  foldl (λ new_function tag, setattr new_function tag (PyBool true))
        new_function tags.

Definition _create_function_from_testcase {R} (test_case : pydict)
    (test_function : pyfunc R) (name doc : string) (tags : list string)
    : exn + pyfunc R :=
  value ← from_option inr (raise KeyError) (test_case !! "__positionals");
  positionals ← py_iter value;
  let test_case := delete "__positionals" test_case in
  let new_function :=
    wraps test_function
      (λ arg kwargs,
         if decide (size kwargs = 0)
         then __code__ test_function (arg ++ positionals) test_case
         else raise TypeError) in
  let new_function := set_name new_function name in
  let old_doc := __doc__ new_function in
  let old_doc :=
    match old_doc with
    | Some (String c d) => " (" +:+ String c d +:+ ")"
    | _ => EmptyString
    end in
  let new_function := setattr new_function "__doc" (PyStr (doc +:+ old_doc)) in
  mret (tag_all new_function tags).

(** The loop [for index, test_case in enumerate(test_cases)], from
    [index] on. *)
Fixpoint register_units {R} (test_function : pyfunc R)
    (naming_func doc_func : pyfunc R → nat → pydict → string)
    (tags : list string) (index : nat) (test_cases : list pydict)
    (frame_locals : scope R) : exn + scope R :=
  match test_cases with
  | [] => mret frame_locals
  | test_case :: rest =>
      let name := naming_func test_function index test_case in
      let doc := doc_func test_function index test_case in
      new_function ←
        _create_function_from_testcase test_case test_function name doc tags;
      register_units test_function naming_func doc_func tags (S index) rest
                     (<[name := new_function]> frame_locals)
  end.

Definition _create_functions_from_testcases {R} (test_function : pyfunc R)
    (test_cases : list pydict)
    (naming_func doc_func : pyfunc R → nat → pydict → string)
    (tags : list string) (frame_locals : scope R)
    : exn + (pyfunc R * scope R) :=
  let test_function := setattr test_function "__test__" (PyBool true) in
  frame_locals ←
    register_units test_function naming_func doc_func tags 0 test_cases
                   frame_locals;
  let test_function := setattr test_function "__test__" (PyBool false) in
  mret (test_function, frame_locals).

(** ** The decorators *)

Module CommonArguments.
Record t := { args : pydict }.

Definition __init__ (kwargs : pydict) : t := {| args := kwargs |}.

Definition __call__ {R} (self : t) (function : pyfunc R) : pyfunc R :=
  let stack := default [] (tc_additional_arguments function) in
  set_tc_additional_arguments function (Some (stack ++ [[args self]])).
End CommonArguments.

Module OptionArguments.
Record t := { options : list pydict }.

Definition __init__ (alternatives : list pydict) (kwargs : pydict)
    : exn + t :=
  match alternatives with
  | _ :: _ => mret {| options := alternatives |}
  | [] =>
      if decide (size kwargs = 1) then
        match map_to_list kwargs with
        | (name, values) :: _ =>
            values ← py_iter values;
            mret {| options := (λ value, {[name := value]}) <$> values |}
        | [] => raise KeyError
        end
      else raise ValueError
  end.

Definition __call__ {R} (self : t) (function : pyfunc R) : pyfunc R :=
  let stack := default [] (tc_additional_arguments function) in
  set_tc_additional_arguments function (Some (stack ++ [options self])).
End OptionArguments.

Module TestCases.
Record t := { parameters : pydict }.

Definition __init__ (args : list pyval) (kwargs : pydict) : t :=
  {| parameters := <["__positionals" := PyList args]> kwargs |}.

Definition __call__ {R} (self : t) (function : pyfunc R) : pyfunc R :=
  let stack := default [] (tc_test_cases function) in
  set_tc_test_cases function (Some (stack ++ [parameters self])).
End TestCases.

Definition alt (kwargs : pydict) : pydict := kwargs.

Module TestExpander.
Record t := { desc : string; tags : list string }.

Definition __init__ (desc : string) (_tags : option (list string)) : t :=
  {| desc := desc; tags := default [] _tags |}.

Definition __call__ {R} (self : t) (function : pyfunc R)
    (frame_locals : scope R) : exn + (pyfunc R * scope R) :=
  let additional_arguments :=
    default [] (tc_additional_arguments function) in
  let function := set_tc_additional_arguments function None in
  let original_test_cases :=
    match tc_test_cases function with
    | Some test_cases => reverse test_cases
    | None => [ {["__positionals" := PyList []]} ]
    end in
  let function := set_tc_test_cases function None in
  let arg_groups := original_test_cases :: additional_arguments in
  let augmented_test_cases :=
    (λ args, deepcopy (merge_dicts args)) <$> product arg_groups in
  _create_functions_from_testcases function augmented_test_cases
    (get_custom_name_func (desc self))
    (get_custom_doc_func (desc self) (length augmented_test_cases))
    (tags self) frame_locals.

(** The locals of [__call__], as functions of the function that the
    decorator is applied to. *)
Definition additional_arguments {R} (function : pyfunc R)
    : list (list pydict) :=
  default [] (tc_additional_arguments function).

Definition original_test_cases {R} (function : pyfunc R) : list pydict :=
  match tc_test_cases function with
  | Some test_cases => reverse test_cases
  | None => [ {["__positionals" := PyList []]} ]
  end.

Definition arg_groups {R} (function : pyfunc R) : list (list pydict) :=
  original_test_cases function :: additional_arguments function.

Definition augmented_test_cases {R} (function : pyfunc R) : list pydict :=
  (λ args, deepcopy (merge_dicts args)) <$> product (arg_groups function).
End TestExpander.

(** A decorator line above a [def], for the three layer kinds: [tc] and
    [common] are the classes themselves, so the line constructs the object
    from its arguments; [options] carries the object that
    [OptionArguments.__init__] returned.  A stack of decorators is in the
    order of the source text, topmost first: [@a @b def f] is [a(b(f))]. *)
Inductive decorator :=
  | tc (args : list pyval) (kwargs : pydict)
  | common (kwargs : pydict)
  | options (self : OptionArguments.t).

Definition apply_decorator {R} (d : decorator) (function : pyfunc R)
    : pyfunc R :=
  match d with
  | tc args kwargs =>
      TestCases.__call__ (TestCases.__init__ args kwargs) function
  | common kwargs =>
      CommonArguments.__call__ (CommonArguments.__init__ kwargs) function
  | options self => OptionArguments.__call__ self function
  end.

Definition decorate {R} (ds : list decorator) (function : pyfunc R)
    : pyfunc R :=
  foldr apply_decorator function ds.

(** ** Notions used in the statements *)

(** Reading a decimal numeral back, leading zeros allowed. *)
Definition nat_of_str (s : string) : option nat :=
  Nat.of_uint <$> NilEmpty.uint_of_string s.

(** Every character of the string satisfies [p]. *)
Fixpoint all_chars (p : ascii → bool) (s : string) : bool :=
  match s with
  | EmptyString => true
  | String c s' => p c && all_chars p s'
  end.

(** The string is empty or starts with a character of the class. *)
Definition starts_safe (s : string) : bool :=
  match s with
  | EmptyString => true
  | String c _ => is_safe c
  end.

(** The cases and the axes that a stack of decorators declares, each in
    the order of the source text, topmost first. *)
Definition cases_of (ds : list decorator) : list pydict :=
  omap (λ d, match d with
             | tc args kwargs =>
                 Some (TestCases.parameters (TestCases.__init__ args kwargs))
             | _ => None
             end) ds.

Definition axes_of (ds : list decorator) : list (list pydict) :=
  omap (λ d, match d with
             | tc _ _ => None
             | common kwargs =>
                 Some [CommonArguments.args (CommonArguments.__init__ kwargs)]
             | options self => Some (OptionArguments.options self)
             end) ds.

(** A function that carries no layer stack. *)
Definition bare {R} (function : pyfunc R) : Prop :=
  tc_test_cases function = None ∧ tc_additional_arguments function = None.

(** No alternative of an axis binds the key reserved for positionals. *)
Definition reserved_free (axes : list (list pydict)) : Prop :=
  Forall (Forall (λ alternative : pydict,
                    alternative !! "__positionals" = None)) axes.

(** A resolved case from which a unit can be built: it binds the reserved
    key to an iterable value. *)
Definition has_positionals (test_case : pydict) : Prop :=
  ∃ value positionals,
    test_case !! "__positionals" = Some value
    ∧ py_iter value = inr positionals.

(** The units that [register_units] creates, in the order of creation. *)
Fixpoint units_from {R} (test_function : pyfunc R)
    (naming_func doc_func : pyfunc R → nat → pydict → string)
    (tags : list string) (index : nat) (test_cases : list pydict)
    : exn + list (pyfunc R) :=
  match test_cases with
  | [] => mret []
  | test_case :: rest =>
      let name := naming_func test_function index test_case in
      let doc := doc_func test_function index test_case in
      new_function ←
        _create_function_from_testcase test_case test_function name doc tags;
      units ←
        units_from test_function naming_func doc_func tags (S index) rest;
      mret (new_function :: units)
  end.

(** Binding units in a scope under their names, one after the other. *)
Definition bind_units {R} (frame_locals : scope R) (units : list (pyfunc R))
    : scope R :=
  foldl (λ locals unit, <[__name__ unit := unit]> locals) frame_locals units.

(** The function as the loop of one batch sees it: the layer stacks
    deleted and the flag [__test__] set. *)
Definition in_loop {R} (function : pyfunc R) : pyfunc R :=
  setattr (set_tc_test_cases (set_tc_additional_arguments function None) None)
          "__test__" (PyBool true).

(** The batch of one expansion. *)
Definition batch {R} (self : TestExpander.t) (function : pyfunc R)
    : exn + list (pyfunc R) :=
  let test_cases := TestExpander.augmented_test_cases function in
  units_from (in_loop function)
    (get_custom_name_func (TestExpander.desc self))
    (get_custom_doc_func (TestExpander.desc self) (length test_cases))
    (TestExpander.tags self) 0 test_cases.

(** The name as the specification words it: the prefix, the sanitized
    description, the marker [_case_] and the padded index. *)
Definition spec_name (description : string) (index : nat) : string :=
  (if String.prefix "test" description then EmptyString else "test_")
    +:+ to_safe_name description +:+ "_case_" +:+ format_03d index.

(** A test body that returns the arguments of its call. *)
Definition echo : pyfunc (list pyval * pydict) :=
  Function "_" None ∅ None None (λ arg kwargs, inr (arg, kwargs)).

(** The same body with a doc string of its own. *)
Definition documented : pyfunc (list pyval * pydict) :=
  Function "_" (Some "checks the login") ∅ None None
           (λ arg kwargs, inr (arg, kwargs)).

(** The axes and the stacks of the examples at the end of the source. *)
Definition action_axis : OptionArguments.t :=
  {| OptionArguments.options :=
       [ {["action" := PyStr "reply"]}; {["action" := PyStr "forward"]} ] |}.

Definition val_axis : OptionArguments.t :=
  {| OptionArguments.options :=
       [ {["val" := PyInt 0]}; {["val" := PyInt 1]}; {["val" := PyInt 2]} ] |}.


Definition position_in_letters : list decorator :=
  [ tc [PyStr "first"] ∅; tc [PyStr "second"] ∅ ].

Definition position_in_digits : list decorator :=
  [ tc [PyStr "1"] ∅; tc [PyStr "2"] ∅ ].

(** A case that declares [val = 1] under an axis whose alternative
    declares [val = 2]. *)
Definition val_override : list decorator :=
  [ tc [] {["val" := PyInt 1]};
    options {| OptionArguments.options := [ {["val" := PyInt 2]} ] |} ].

(** Two cases and one axis: [login with valid and invalid tokens]. *)
Definition login : list decorator :=
  [ tc [PyStr "valid"] ∅;
    tc [PyStr "invalid"] ∅;
    options {| OptionArguments.options :=
                 [ {["strict" := PyBool true]};
                   {["strict" := PyBool false]} ] |} ].



Definition override_axis : list decorator :=
  [ tc [PyStr "first"] {["val" := PyInt 1]};
    options {| OptionArguments.options :=
                 [ {["__positionals" := PyList [PyStr "other"]]} ] |} ].

(** * Properties *)

(** ** Strings *)

Lemma append_nil_l (s : string) : EmptyString +:+ s = s.
Proof. reflexivity. Qed.

Lemma append_cons (c : ascii) (a b : string) :
  String c a +:+ b = String c (a +:+ b).
Proof. reflexivity. Qed.

Lemma append_assoc (a b c : string) : (a +:+ b) +:+ c = a +:+ (b +:+ c).
Proof.
  induction a as [|x a IH]; [done |]. by rewrite !append_cons, IH.
Qed.

Lemma nat_of_str_of_nat (n : nat) : nat_of_str (str_of_nat n) = Some n.
Proof.
  unfold nat_of_str, str_of_nat.
  by rewrite NilEmpty.usu; simpl; rewrite Unsigned.of_to.
Qed.

Lemma nat_of_str_zeros (k : nat) (s : string) :
  nat_of_str (zeros k +:+ s) = nat_of_str s.
Proof.
  induction k as [|k IH]; [done |].
  rewrite <- IH. unfold nat_of_str. simpl.
  by destruct (NilEmpty.uint_of_string (zeros k +:+ s)).
Qed.

Lemma nat_of_str_format_03d (n : nat) : nat_of_str (format_03d n) = Some n.
Proof. unfold format_03d. by rewrite nat_of_str_zeros, nat_of_str_of_nat. Qed.

Lemma format_03d_inj (i j : nat) : format_03d i = format_03d j → i = j.
Proof.
  intros H. apply (f_equal nat_of_str) in H.
  rewrite !nat_of_str_format_03d in H. congruence.
Qed.

Lemma custom_name_inj {R} (description : string) (f g : pyfunc R)
    (i j : nat) (c d : pydict) :
  get_custom_name_func description f i c
  = get_custom_name_func description g j d → i = j.
Proof.
  unfold get_custom_name_func. intros H.
  by do 3 apply String.app_inj in H; apply format_03d_inj.
Qed.

Lemma re_sub_unsafe_safe (m : bool) (s : string) :
  all_chars is_safe s = true → re_sub_unsafe m s = s.
Proof.
  revert m. induction s as [|c s IH]; intros m; simpl; [done |].
  intros [Hc Hs]%andb_prop. rewrite Hc. by rewrite IH.
Qed.

Lemma re_sub_unsafe_skip (s rest : string) :
  all_chars (negb ∘ is_safe) s = true →
  re_sub_unsafe true (s +:+ rest) = re_sub_unsafe true rest.
Proof.
  induction s as [|c s IH]; [done |]. rewrite append_cons. simpl.
  intros [Hc Hs]%andb_prop. apply negb_true_iff in Hc. rewrite Hc. auto.
Qed.

Lemma re_sub_unsafe_start (rest : string) :
  starts_safe rest = true →
  re_sub_unsafe true rest = re_sub_unsafe false rest.
Proof. destruct rest as [|c rest]; simpl; [done |]. by intros ->. Qed.

Lemma to_safe_name_run (a run rest : string) :
  all_chars is_safe a = true →
  run ≠ EmptyString → all_chars (negb ∘ is_safe) run = true →
  starts_safe rest = true →
  to_safe_name (a +:+ run +:+ rest) = a +:+ "_" +:+ to_safe_name rest.
Proof.
  unfold to_safe_name. intros Ha Hne Hrun Hrest.
  induction a as [|x a IH].
  - destruct run as [|y run]; [done |]. rewrite append_nil_l, append_cons.
    simpl in *. apply andb_prop in Hrun as [Hy Hrun].
    apply negb_true_iff in Hy.
    rewrite Hy. by rewrite re_sub_unsafe_skip, re_sub_unsafe_start.
  - simpl in Ha. apply andb_prop in Ha as [Hx Ha].
    rewrite !append_cons. simpl. rewrite Hx. by rewrite IH.
Qed.

Lemma to_safe_name_all_safe (s : string) :
  all_chars is_safe (to_safe_name s) = true.
Proof.
  unfold to_safe_name. generalize false.
  induction s as [|c s IH]; intros m; simpl; [done |].
  destruct (is_safe c) eqn:Hc; simpl.
  - by rewrite Hc, IH.
  - destruct m; simpl; by rewrite ?IH.
Qed.

(** ** The cartesian product *)

Section product.
Context {A : Type}.
Implicit Types (pool : list A) (pools : list (list A)).

Lemma product_snoc pools pool :
  product (pools ++ [pool]) = x ← product pools; y ← pool; [x ++ [y]].
Proof. unfold product. by rewrite foldl_snoc. Qed.

Lemma bind_bind {B C D} (f : B → list C) (g : C → list D) (l : list B) :
  (l ≫= f) ≫= g = l ≫= (λ x, f x ≫= g).
Proof.
  induction l as [|x l IH]; [done |].
  change ((f x ++ (l ≫= f)) ≫= g = (f x ≫= g) ++ (l ≫= λ x, f x ≫= g)).
  by rewrite bind_app, IH.
Qed.

Lemma foldl_extend pools (acc : list (list A)) :
  foldl extend acc pools = a ← acc; t ← product pools; [a ++ t].
Proof.
  revert acc. induction pools as [|pool pools IH] using rev_ind; intros acc.
  - simpl. induction acc as [|a acc IHa]; [done |].
    cbn. rewrite app_nil_r. f_equal. exact IHa.
  - rewrite foldl_snoc, IH, product_snoc. unfold extend.
    rewrite bind_bind. apply list_bind_ext; [| done]. intros a.
    rewrite !bind_bind. apply list_bind_ext; [| done]. intros t.
    rewrite bind_singleton, bind_bind. apply list_bind_ext; [| done].
    intros y. by rewrite bind_singleton, app_assoc.
Qed.

(** The first pool is the outermost loop. *)
Lemma product_cons pool pools :
  product (pool :: pools) = x ← pool; t ← product pools; [x :: t].
Proof.
  transitivity (foldl extend (extend [[]] pool) pools); [done |].
  rewrite foldl_extend. unfold extend. rewrite bind_singleton.
  rewrite bind_bind. apply list_bind_ext; [| done]. intros x.
  by rewrite bind_singleton.
Qed.

Lemma product_nil : product (A:=A) [] = [[]].
Proof. done. Qed.



(** A tuple takes one element of each pool, in the order of the pools. *)
Lemma elem_of_product pools (t : list A) :
  t ∈ product pools ↔ Forall2 (λ x pool, x ∈ pool) t pools.
Proof.
  revert t. induction pools as [|pool pools IH]; intros t.
  - rewrite product_nil, list_elem_of_singleton. split.
    + intros ->. constructor.
    + by intros ->%Forall2_nil_inv_r.
  - rewrite product_cons, list_elem_of_bind. split.
    + intros (x & (t' & Ht%list_elem_of_singleton & Ht')%list_elem_of_bind
               & Hx). subst t. constructor; [done | by apply IH].
    + intros (x & t' & Hx & Ht' & ->)%Forall2_cons_inv_r.
      exists x. split; [| done]. apply list_elem_of_bind.
      exists t'. split; [by apply list_elem_of_singleton | by apply IH].
Qed.
End product.

(** ** Merging *)

Lemma merge_dicts_snoc (dicts : list pydict) (d : pydict) :
  merge_dicts (dicts ++ [d]) = d ∪ merge_dicts dicts.
Proof. unfold merge_dicts. by rewrite foldl_snoc. Qed.

(** A key keeps the value of the last dictionary that binds it. *)
Lemma merge_dicts_lookup_last (before after : list pydict) (d : pydict)
    (k : string) (v : pyval) :
  d !! k = Some v →
  Forall (λ d' : pydict, d' !! k = None) after →
  merge_dicts (before ++ d :: after) !! k = Some v.
Proof.
  intros Hd. induction after as [|d' after IH] using rev_ind; intros Hafter.
  - rewrite merge_dicts_snoc. by apply lookup_union_Some_l.
  - rewrite Forall_app, Forall_singleton in Hafter.
    destruct Hafter as [Hafter Hd'].
    rewrite app_comm_cons, app_assoc, merge_dicts_snoc.
    rewrite lookup_union_r; [by apply IH | done].
Qed.

(** Among layers of which one binds the key, the last that does. *)
Lemma last_binding (layers : list pydict) (k : string) :
  Exists (λ layer : pydict, is_Some (layer !! k)) layers →
  ∃ before layer after v,
    layers = before ++ layer :: after
    ∧ layer !! k = Some v
    ∧ Forall (λ later : pydict, later !! k = None) after.
Proof.
  induction layers as [|d layers IH] using rev_ind.
  - by intros ?%Exists_nil.
  - destruct (d !! k) as [v|] eqn:Hd.
    + intros _. by exists layers, d, [], v.
    + rewrite Exists_app, Exists_cons, Exists_nil, Hd.
      intros [H | [[? [=]] | []]].
      destruct (IH H) as (before & layer & after & v & -> & Hl & Hafter).
      exists before, layer, (after ++ [d]), v.
      split; [by rewrite <- app_assoc |]. split; [done |].
      apply Forall_app. split; [done | by apply Forall_singleton].
Qed.

Lemma merge_dicts_lookup_first (c : pydict) (alternatives : list pydict)
    (k : string) (v : pyval) :
  c !! k = Some v →
  Forall (λ d' : pydict, d' !! k = None) alternatives →
  merge_dicts (c :: alternatives) !! k = Some v.
Proof. apply (merge_dicts_lookup_last []). Qed.

(** ** Stacking the layers *)

Section decorate.
Context {R : Type}.
Implicit Types (f : pyfunc R) (ds : list decorator).

Lemma decorate_cons d ds f :
  decorate (d :: ds) f = apply_decorator d (decorate ds f).
Proof. done. Qed.

Lemma decorate_slots ds f :
  __name__ (decorate ds f) = __name__ f
  ∧ __doc__ (decorate ds f) = __doc__ f
  ∧ __dict__ (decorate ds f) = __dict__ f
  ∧ __code__ (decorate ds f) = __code__ f.
Proof.
  induction ds as [|d ds IH]; [done |].
  rewrite decorate_cons. by destruct d.
Qed.

Lemma decorate_tc_test_cases ds f :
  tc_test_cases (decorate ds f)
  = match cases_of ds with
    | [] => tc_test_cases f
    | cs => Some (default [] (tc_test_cases f) ++ reverse cs)
    end.
Proof.
  induction ds as [|d ds IH]; [done |].
  rewrite decorate_cons. destruct d as [args kwargs|kwargs|self];
    simpl; try done.
  rewrite IH. rewrite reverse_cons.
  destruct (cases_of ds) as [|c cs]; simpl; [done |].
  by rewrite app_assoc.
Qed.

Lemma decorate_tc_additional_arguments ds f :
  tc_additional_arguments (decorate ds f)
  = match axes_of ds with
    | [] => tc_additional_arguments f
    | axes => Some (default [] (tc_additional_arguments f) ++ reverse axes)
    end.
Proof.
  induction ds as [|d ds IH]; [done |].
  rewrite decorate_cons. destruct d as [args kwargs|kwargs|self];
    simpl; try done.
  all: rewrite IH, reverse_cons.
  all: destruct (axes_of ds) as [|a axes]; simpl; [done |].
  all: by rewrite app_assoc.
Qed.

(** The pools of the product for a stack declared on a bare function:
    the cases in the order of the text, or the implicit case, then the
    axes from the lowest decorator to the topmost. *)
Lemma arg_groups_decorate ds f :
  bare f →
  TestExpander.arg_groups (decorate ds f)
  = match cases_of ds with
    | [] => [ {["__positionals" := PyList []]} ]
    | cs => cs
    end :: reverse (axes_of ds).
Proof.
  intros [Hc Ha].
  unfold TestExpander.arg_groups, TestExpander.original_test_cases,
    TestExpander.additional_arguments.
  rewrite decorate_tc_test_cases, decorate_tc_additional_arguments, Hc, Ha.
  f_equal.
  - destruct (cases_of ds) as [|c cs] eqn:E; [done |].
    simpl. by rewrite reverse_involutive.
  - by destruct (axes_of ds).
Qed.

Lemma decorate_setattr ds f k v :
  decorate ds (setattr f k v) = setattr (decorate ds f) k v.
Proof.
  induction ds as [|d ds IH]; [done |].
  rewrite !decorate_cons, IH. by destruct d.
Qed.
End decorate.

(** ** One unit *)

Section units.
Context {R : Type}.
Implicit Types (f tf u : pyfunc R) (tags : list string).
Implicit Types (naming_func doc_func : pyfunc R → nat → pydict → string).

Lemma tag_all_slots f tags :
  __name__ (tag_all f tags) = __name__ f
  ∧ __doc__ (tag_all f tags) = __doc__ f
  ∧ __code__ (tag_all f tags) = __code__ f
  ∧ tc_test_cases (tag_all f tags) = tc_test_cases f
  ∧ tc_additional_arguments (tag_all f tags) = tc_additional_arguments f.
Proof.
  revert f. induction tags as [|tag tags IH]; intros f; [done |].
  apply (IH (setattr f tag (PyBool true))).
Qed.

Ltac unit_slots :=
  match goal with
  | |- context [tag_all ?f ?tags] =>
      let Hn := fresh in let Hd := fresh in let Hc := fresh in
      let Ht := fresh in let Ha := fresh in
      destruct (tag_all_slots f tags) as (Hn & Hd & Hc & Ht & Ha);
      rewrite ?Hn, ?Hd, ?Hc, ?Ht, ?Ha
  end.


Lemma create_name test_case tf name doc tags u :
  _create_function_from_testcase test_case tf name doc tags = inr u →
  __name__ u = name.
Proof.
  unfold _create_function_from_testcase.
  destruct (test_case !! "__positionals") as [value|]; [| done]. simpl.
  destruct (py_iter value) as [e|positionals]; [done |]. simpl.
  intros [= <-]. by unit_slots.
Qed.

Lemma create_doc test_case tf name doc tags u :
  _create_function_from_testcase test_case tf name doc tags = inr u →
  __doc__ u = __doc__ tf.
Proof.
  unfold _create_function_from_testcase.
  destruct (test_case !! "__positionals") as [value|]; [| done]. simpl.
  destruct (py_iter value) as [e|positionals]; [done |]. simpl.
  intros [= <-]. by unit_slots.
Qed.



(** The call of a unit. *)
Lemma create_code test_case tf name doc tags value positionals :
  test_case !! "__positionals" = Some value →
  py_iter value = inr positionals →
  ∃ u, _create_function_from_testcase test_case tf name doc tags = inr u
       ∧ ∀ arg, __code__ u arg ∅
                = __code__ tf (arg ++ positionals)
                              (delete "__positionals" test_case).
Proof.
  intros Hv Hp. unfold _create_function_from_testcase.
  rewrite Hv. simpl. rewrite Hp. simpl. eexists. split; [done |].
  intros arg. by unit_slots.
Qed.

Lemma create_code_inv test_case tf name doc tags u value positionals :
  _create_function_from_testcase test_case tf name doc tags = inr u →
  test_case !! "__positionals" = Some value →
  py_iter value = inr positionals →
  ∀ arg, __code__ u arg ∅
         = __code__ tf (arg ++ positionals)
                       (delete "__positionals" test_case).
Proof.
  intros Hu Hv Hp.
  destruct (create_code test_case tf name doc tags value positionals Hv Hp)
    as (u' & Hu' & Hcode).
  rewrite Hu in Hu'. by injection Hu' as <-.
Qed.

(** ** The loop *)

Lemma register_units_units_from tf naming_func doc_func tags index
    test_cases (frame_locals : scope R) :
  register_units tf naming_func doc_func tags index test_cases frame_locals
  = units ← units_from tf naming_func doc_func tags index test_cases;
    mret (bind_units frame_locals units).
Proof.
  revert index frame_locals.
  induction test_cases as [|test_case rest IH]; intros index frame_locals;
    [done |].
  simpl.
  destruct (_create_function_from_testcase _ _ _ _ _) as [e|u] eqn:Hu;
    [done |].
  simpl. rewrite IH. apply create_name in Hu as <-.
  by destruct (units_from _ _ _ _ _ _).
Qed.

Lemma units_from_lookup tf naming_func doc_func tags index test_cases
    units :
  units_from tf naming_func doc_func tags index test_cases = inr units →
  length units = length test_cases
  ∧ ∀ j test_case, test_cases !! j = Some test_case →
      ∃ u, units !! j = Some u
           ∧ _create_function_from_testcase test_case tf
               (naming_func tf (index + j) test_case)
               (doc_func tf (index + j) test_case) tags = inr u.
Proof.
  revert index units.
  induction test_cases as [|test_case rest IH]; intros index units.
  - intros [= <-]. split; [done |]. intros j tcj. by destruct j.
  - simpl.
    destruct (_create_function_from_testcase _ _ _ _ _) as [e|u] eqn:Hu;
      [done |]. simpl.
    destruct (units_from _ _ _ _ _ rest) as [e|us] eqn:Hus; [done |].
    intros [= <-]. destruct (IH _ _ Hus) as [Hlen Hall].
    split; [simpl; by rewrite Hlen |].
    intros [|j] tcj Hj; simpl in Hj.
    + injection Hj as <-. exists u. by rewrite Nat.add_0_r.
    + destruct (Hall j tcj Hj) as (u' & Hu' & Hc).
      exists u'. split; [done |]. by rewrite Nat.add_succ_r.
Qed.

Lemma units_from_names tf naming_func doc_func tags index test_cases
    units :
  units_from tf naming_func doc_func tags index test_cases = inr units →
  __name__ <$> units
  = imap (λ j test_case, naming_func tf (index + j) test_case) test_cases.
Proof.
  revert index units.
  induction test_cases as [|test_case rest IH]; intros index units.
  - by intros [= <-].
  - simpl.
    destruct (_create_function_from_testcase _ _ _ _ _) as [e|u] eqn:Hu;
      [done |]. simpl.
    destruct (units_from _ _ _ _ _ rest) as [e|us] eqn:Hus; [done |].
    intros [= <-]. rewrite fmap_cons, (IH _ _ Hus).
    apply create_name in Hu as ->. rewrite Nat.add_0_r. f_equal.
    apply imap_ext. intros j tcj _. simpl. by rewrite Nat.add_succ_r.
Qed.

Lemma units_from_ok tf naming_func doc_func tags index test_cases :
  Forall has_positionals test_cases →
  ∃ units,
    units_from tf naming_func doc_func tags index test_cases = inr units.
Proof.
  intros Hall. revert index.
  induction Hall as [|test_case rest (v & ps & Hv & Hps) _ IH];
    intros index; [by eexists |].
  simpl.
  destruct (create_code test_case tf
              (naming_func tf index test_case)
              (doc_func tf index test_case) tags v ps Hv Hps)
    as (u & -> & _).
  destruct (IH (S index)) as (us & ->). by eexists.
Qed.

(** The names of one batch are pairwise distinct. *)
Lemma units_from_NoDup description tf doc_func tags index test_cases units :
  units_from tf (get_custom_name_func description) doc_func tags index
             test_cases = inr units →
  NoDup (__name__ <$> units).
Proof.
  intros ->%units_from_names.
  apply NoDup_alt. intros i j name.
  rewrite !list_lookup_imap.
  destruct (test_cases !! i) as [ci|]; [| done].
  destruct (test_cases !! j) as [cj|]; [| done]. simpl.
  intros [= <-] [= H%custom_name_inj]. lia.
Qed.

(** ** The scope after a batch *)

Lemma bind_units_snoc (frame_locals : scope R) units u :
  bind_units frame_locals (units ++ [u])
  = <[__name__ u := u]> (bind_units frame_locals units).
Proof. unfold bind_units. by rewrite foldl_snoc. Qed.

Lemma bind_units_lookup_other (frame_locals : scope R) units name :
  name ∉ __name__ <$> units →
  bind_units frame_locals units !! name = frame_locals !! name.
Proof.
  induction units as [|u units IH] using rev_ind; [done |].
  rewrite fmap_app, not_elem_of_app, bind_units_snoc. simpl.
  intros [Hunits Hu%not_elem_of_cons]. destruct Hu as [Hu _].
  rewrite lookup_insert_ne by done. auto.
Qed.

Lemma bind_units_lookup (frame_locals : scope R) units u :
  NoDup (__name__ <$> units) → u ∈ units →
  bind_units frame_locals units !! __name__ u = Some u.
Proof.
  induction units as [|u' units IH] using rev_ind; [by intros _ ?%elem_of_nil |].
  rewrite fmap_app, bind_units_snoc. simpl.
  intros (Hnd & Hdisj & _)%NoDup_app [Hin | ->%list_elem_of_singleton]%elem_of_app.
  - rewrite lookup_insert_ne; [by apply IH |].
    intros Heq. apply (Hdisj (__name__ u)).
    + apply list_elem_of_fmap. by exists u.
    + rewrite <- Heq. apply list_elem_of_singleton. done.
  - by rewrite lookup_insert_eq.
Qed.

(** ** The expansion *)

Lemma call_batch (self : TestExpander.t) f (frame_locals : scope R) :
  TestExpander.__call__ self f frame_locals
  = units ← batch self f;
    mret (setattr (in_loop f) "__test__" (PyBool false),
          bind_units frame_locals units).
Proof.
  transitivity
    (_create_functions_from_testcases
       (set_tc_test_cases (set_tc_additional_arguments f None) None)
       (TestExpander.augmented_test_cases f)
       (get_custom_name_func (TestExpander.desc self))
       (get_custom_doc_func (TestExpander.desc self)
          (length (TestExpander.augmented_test_cases f)))
       (TestExpander.tags self) frame_locals); [reflexivity |].
  unfold _create_functions_from_testcases, batch, in_loop.
  rewrite register_units_units_from.
  by destruct (units_from _ _ _ _ _ _).
Qed.
End units.

(** ** The resolved cases of a stack of decorators *)

Section resolved.
Context {R : Type}.
Implicit Types (f : pyfunc R) (ds : list decorator).

Lemma elem_of_cases_of ds (c : pydict) :
  c ∈ cases_of ds ↔
  ∃ args kwargs, tc args kwargs ∈ ds
    ∧ c = TestCases.parameters (TestCases.__init__ args kwargs).
Proof.
  unfold cases_of. rewrite list_elem_of_omap. split.
  - intros ([args kwargs|kwargs|self] & Hd & [= <-]). eauto.
  - intros (args & kwargs & Hd & ->). by exists (tc args kwargs).
Qed.

Lemma implicit_case :
  ({["__positionals" := PyList []]} : pydict)
  = TestCases.parameters (TestCases.__init__ [] ∅).
Proof. simpl. by rewrite insert_empty. Qed.

(** A tuple of the product is a declared case, or the implicit one,
    followed by one alternative of each axis; when the axes leave the
    reserved key alone, the merge keeps the positionals of the case. *)
Lemma tuple_shape ds f (t : list pydict) :
  bare f → reserved_free (axes_of ds) →
  t ∈ product (TestExpander.arg_groups (decorate ds f)) →
  ∃ args kwargs alternatives,
    t = TestCases.parameters (TestCases.__init__ args kwargs)
        :: alternatives
    ∧ (tc args kwargs ∈ ds ∨ cases_of ds = [] ∧ args = [] ∧ kwargs = ∅)
    ∧ Forall2 (λ alternative axis, alternative ∈ axis)
              alternatives (reverse (axes_of ds))
    ∧ merge_dicts t !! "__positionals" = Some (PyList args).
Proof.
  intros Hbare Hfree. rewrite arg_groups_decorate by done.
  intros (c & alternatives & Hc & Halts & ->)%elem_of_product
    %Forall2_cons_inv_r.
  assert (∃ args kwargs,
    c = TestCases.parameters (TestCases.__init__ args kwargs)
    ∧ (tc args kwargs ∈ ds ∨ cases_of ds = [] ∧ args = [] ∧ kwargs = ∅))
    as (args & kwargs & -> & Hdecl).
  { destruct (cases_of ds) as [|c0 cs] eqn:E.
    - apply list_elem_of_singleton in Hc as ->.
      exists [], ∅. split; [apply implicit_case | by right].
    - rewrite <- E in Hc. apply elem_of_cases_of in Hc
        as (args & kwargs & Hd & ->). exists args, kwargs. by split; [| left]. }
  exists args, kwargs, alternatives. repeat split; try done.
  apply merge_dicts_lookup_first; [by simpl; rewrite lookup_insert_eq |].
  apply Forall_forall. intros alternative Hin.
  apply list_elem_of_lookup in Hin as [i Hi].
  destruct (Forall2_lookup_l _ _ _ _ _ Halts Hi) as (axis & Haxis & Hmem).
  unfold reserved_free in Hfree. rewrite Forall_forall in Hfree.
  assert (axis ∈ axes_of ds) as Hax.
  { apply elem_of_reverse. by eapply list_elem_of_lookup_2. }
  specialize (Hfree axis Hax). rewrite Forall_forall in Hfree. auto.
Qed.

Lemma resolved_have_positionals ds f :
  bare f → reserved_free (axes_of ds) →
  Forall has_positionals (TestExpander.augmented_test_cases (decorate ds f)).
Proof.
  intros Hbare Hfree. apply Forall_forall. intros test_case.
  unfold TestExpander.augmented_test_cases.
  intros (t & -> & Ht)%list_elem_of_fmap.
  destruct (tuple_shape ds f t Hbare Hfree Ht)
    as (args & kwargs & alternatives & _ & _ & _ & Hp).
  by exists (PyList args), args.
Qed.


(** The batch of a stack declared on a bare function. *)
Lemma batch_ok (self : TestExpander.t) ds f :
  bare f → reserved_free (axes_of ds) →
  ∃ units, batch self (decorate ds f) = inr units.
Proof.
  intros Hbare Hfree. apply units_from_ok.
  by apply resolved_have_positionals.
Qed.

End resolved.

(** * The claims *)

(** ** Names (C5) *)

Lemma length_append (a b : string) :
  String.length (a +:+ b) = String.length a + String.length b.
Proof.
  induction a as [|x a IH]; [done |]. rewrite append_cons. simpl. by rewrite IH.
Qed.

Lemma length_zeros (k : nat) : String.length (zeros k) = k.
Proof. induction k as [|k IH]; simpl; [done | by rewrite IH]. Qed.

Lemma length_format_03d (n : nat) : 3 ≤ String.length (format_03d n).
Proof. unfold format_03d. rewrite length_append, length_zeros. lia. Qed.

Lemma length_format_03d_small (n : nat) :
  n < 1000 → String.length (format_03d n) = 3.
Proof.
  intros Hn.
  assert (forallb (λ n, String.length (format_03d n) =? 3) (seq 0 1000) = true)
    as Hall by (vm_compute; reflexivity).
  rewrite forallb_forall in Hall.
  apply Nat.eqb_eq, Hall, in_seq. lia.
Qed.

(** C5, as the code has it: the name is the prefix [test_], present
    exactly when the description does not start with [test], then the
    description with every maximal run of characters outside
    [a-zA-Z0-9_] replaced by one underscore, then the marker [__case_]
    (an underscore and the [_case_] of the claim), then the index in
    decimal, padded with zeros to at least three digits (exactly three
    below 1000); the index can be read back from the name, so the names
    of one batch are pairwise distinct. *)
Theorem custom_name_shape {R} (description : string) (f : pyfunc R)
    (index : nat) (param : pydict) :
  get_custom_name_func description f index param
  = (if String.prefix "test" description then EmptyString else "test_")
      +:+ to_safe_name description +:+ "_" +:+ "_case_" +:+ format_03d index
  ∧ all_chars is_safe (to_safe_name description) = true
  ∧ (all_chars is_safe description = true →
     to_safe_name description = description)
  ∧ (∀ a run rest,
       description = a +:+ run +:+ rest →
       all_chars is_safe a = true →
       run ≠ EmptyString → all_chars (negb ∘ is_safe) run = true →
       starts_safe rest = true →
       to_safe_name description = a +:+ "_" +:+ to_safe_name rest)
  ∧ nat_of_str (format_03d index) = Some index
  ∧ 3 ≤ String.length (format_03d index)
  ∧ (index < 1000 → String.length (format_03d index) = 3)
  ∧ (∀ (g : pyfunc R) index' param',
       get_custom_name_func description f index param
       = get_custom_name_func description g index' param' →
       index = index').
Proof.
  split; [done |].
  split; [apply to_safe_name_all_safe |].
  split; [apply re_sub_unsafe_safe |].
  split; [intros a run rest ->; apply to_safe_name_run |].
  split; [apply nat_of_str_format_03d |].
  split; [apply length_format_03d |].
  split; [apply length_format_03d_small |].
  intros g index' param'. apply custom_name_inj.
Qed.

Lemma custom_name_shape_witness :
  get_custom_name_func "login with valid and invalid tokens" echo 3 ∅
  = "test_login_with_valid_and_invalid_tokens__case_003"
  ∧ to_safe_name "reply/forward, 0 to 2" = "reply_forward_0_to_2"
  ∧ String.length (format_03d 3) = 3
  ∧ get_custom_name_func "test reply" echo 3 ∅ = "test_reply__case_003"
  ∧ get_custom_name_func "test reply" echo 3 ∅
    ≠ get_custom_name_func "test reply" echo 4 ∅.
Proof.
  destruct (custom_name_shape "login with valid and invalid tokens" echo 3 ∅)
    as (Hname & _ & _ & _ & _ & _ & Hlen & _).
  destruct (custom_name_shape "reply/forward, 0 to 2" echo 0 ∅)
    as (_ & _ & _ & Hrun & _).
  destruct (custom_name_shape "test reply" echo 3 ∅)
    as (Hname' & _ & _ & _ & _ & _ & _ & Hinj).
  split; [rewrite Hname; reflexivity |].
  split.
  { by rewrite (Hrun "reply" "/" "forward, 0 to 2"). }
  split; [apply Hlen; lia |].
  split; [rewrite Hname'; reflexivity |].
  intros Heq. apply Hinj in Heq. discriminate Heq.
Defined.

(** The name that the code builds is not the one that C5 words: the
    marker in the code starts with one more underscore. *)
Lemma custom_name_not_spec_name :
  get_custom_name_func "a" echo 0 ∅ = "test_a__case_000"
  ∧ spec_name "a" 0 = "test_a_case_000"
  ∧ get_custom_name_func "a" echo 0 ∅ ≠ spec_name "a" 0.
Proof. split; [done |]. split; [done |]. by vm_compute. Qed.

(** ** The size of a batch (C1) *)

Lemma in_loop_code {R} (ds : list decorator) (f : pyfunc R) :
  __code__ (in_loop (decorate ds f)) = __code__ f.
Proof. simpl. apply decorate_slots. Qed.





(** ** Precedence in the merge (C2) *)

(** C2: every resolved case is the merge, from left to right, of one case
    and one alternative of each axis in the order of the axis list; a key
    takes the value of the last layer that binds it, so whenever a chosen
    alternative assigns a name, the resolved case carries the value of an
    alternative for it, whatever the case declares. *)
Theorem axis_overrides_case {R} (f : pyfunc R) (test_case : pydict) :
  test_case ∈ TestExpander.augmented_test_cases f →
  ∃ c alternatives,
    test_case = merge_dicts (c :: alternatives)
    ∧ c ∈ TestExpander.original_test_cases f
    ∧ Forall2 (λ alternative axis, alternative ∈ axis)
              alternatives (TestExpander.additional_arguments f)
    ∧ (∀ (before after : list pydict) (layer : pydict) k v,
         c :: alternatives = before ++ layer :: after →
         layer !! k = Some v →
         Forall (λ later : pydict, later !! k = None) after →
         test_case !! k = Some v)
    ∧ (∀ k,
         Exists (λ alternative : pydict, is_Some (alternative !! k))
                alternatives →
         ∃ alternative v,
           alternative ∈ alternatives
           ∧ alternative !! k = Some v
           ∧ test_case !! k = Some v).
Proof.
  unfold TestExpander.augmented_test_cases, TestExpander.arg_groups.
  intros (t & -> & Ht)%list_elem_of_fmap.
  apply elem_of_product in Ht
    as (c & alternatives & Hc & Halts & ->)%Forall2_cons_inv_r.
  exists c, alternatives. split; [done |]. split; [done |]. split; [done |].
  split.
  - intros before after layer k v -> Hlayer Hafter.
    by apply merge_dicts_lookup_last.
  - intros k (before & layer & after & v & -> & Hlayer & Hafter)%last_binding.
    exists layer, v. split; [| split; [done |]].
    + apply elem_of_app. right. by left.
    + by apply (merge_dicts_lookup_last (c :: before)).
Qed.

Lemma axis_overrides_case_witness :
  ∃ test_case : pydict,
    test_case ∈ TestExpander.augmented_test_cases (decorate val_override echo)
    ∧ test_case !! "val" = Some (PyInt 2).
Proof.
  exists (<["val" := PyInt 2]> {["__positionals" := PyList []]}).
  assert (<["val" := PyInt 2]> {["__positionals" := PyList []]}
          ∈ TestExpander.augmented_test_cases (decorate val_override echo))
    as Hin by (apply list_elem_of_singleton; reflexivity).
  split; [exact Hin |].
  destruct (axis_overrides_case _ _ Hin)
    as (c & alternatives & _ & Hc & Halts & Hlast & _).
  apply list_elem_of_singleton in Hc.
  apply Forall2_cons_inv_r in Halts as (a & rest & Ha & Hrest & ->).
  apply Forall2_nil_inv_r in Hrest as ->.
  apply list_elem_of_singleton in Ha.
  apply (Hlast [c] [] a); [reflexivity | by rewrite Ha | constructor].
Defined.

(** ** The order of a batch (C3) *)

Lemma fmap_bind {A B C} (g : B → C) (k : A → list B) (l : list A) :
  g <$> (l ≫= k) = l ≫= (λ x, g <$> k x).
Proof.
  induction l as [|x l IH]; [done |].
  change (g <$> (k x ++ (l ≫= k)) = (g <$> k x) ++ (l ≫= λ x, g <$> k x)).
  by rewrite fmap_app, IH.
Qed.

Lemma augmented_test_cases_loops {R} (f : pyfunc R) :
  TestExpander.augmented_test_cases f
  = c ← TestExpander.original_test_cases f;
    t ← product (TestExpander.additional_arguments f);
    [merge_dicts (c :: t)].
Proof.
  unfold TestExpander.augmented_test_cases, TestExpander.arg_groups.
  rewrite product_cons, fmap_bind.
  apply list_bind_ext; [| done]. intros c.
  rewrite fmap_bind. by apply list_bind_ext.
Qed.

(** C3: on a bare function the resolved cases come in the order of three
    nested loops: the outermost over the cases in the order of the source
    text (the implicit case when none is declared), the innermost over the
    alternatives of the topmost axis decorator, the other axes in between;
    so the case varies slowest and the topmost axis fastest.  The unit of
    index [j] is built from the [j]-th resolved case. *)
Theorem expansion_order {R} (self : TestExpander.t) (ds : list decorator)
    (f : pyfunc R) :
  bare f →
  let cases :=
    match cases_of ds with
    | [] => [ {["__positionals" := PyList []]} ]
    | cs => cs
    end in
  TestExpander.augmented_test_cases (decorate ds f)
  = (c ← cases; t ← product (reverse (axes_of ds)); [merge_dicts (c :: t)])
  ∧ (∀ axis axes, axes_of ds = axis :: axes →
       TestExpander.augmented_test_cases (decorate ds f)
       = c ← cases;
         t ← product (reverse axes);
         alternative ← axis;
         [merge_dicts (c :: t ++ [alternative])])
  ∧ (∀ units, batch self (decorate ds f) = inr units →
       ∀ j test_case,
         TestExpander.augmented_test_cases (decorate ds f) !! j
         = Some test_case →
         ∃ u, units !! j = Some u
              ∧ __name__ u
                = get_custom_name_func (TestExpander.desc self) f j test_case
              ∧ ∀ value positionals,
                  test_case !! "__positionals" = Some value →
                  py_iter value = inr positionals →
                  ∀ arg, __code__ u arg ∅
                         = __code__ f (arg ++ positionals)
                             (delete "__positionals" test_case)).
Proof.
  intros Hbare cases.
  assert (TestExpander.augmented_test_cases (decorate ds f)
          = c ← cases; t ← product (reverse (axes_of ds));
            [merge_dicts (c :: t)]) as Hloops.
  { rewrite augmented_test_cases_loops.
    pose proof (arg_groups_decorate ds f Hbare) as [= -> ->]. done. }
  split; [exact Hloops |]. split.
  - intros axis axes Haxes. rewrite Hloops, Haxes, reverse_cons.
    apply list_bind_ext; [| done]. intros c.
    rewrite product_snoc, bind_bind.
    apply list_bind_ext; [| done]. intros t.
    rewrite bind_bind. apply list_bind_ext; [| done]. intros alternative.
    by rewrite bind_singleton.
  - intros units [_ Hall]%units_from_lookup j test_case Hj.
    destruct (Hall j test_case Hj) as (u & Hu & Hcreate).
    exists u. split; [done |]. split; [by apply create_name in Hcreate |].
    intros value positionals Hv Hp.
    intros arg. rewrite (create_code_inv _ _ _ _ _ _ _ _ Hcreate Hv Hp arg).
    by rewrite in_loop_code.
Qed.

Lemma expansion_order_witness :
  bare echo
  ∧ TestExpander.augmented_test_cases (decorate login echo)
    = [ <["strict" := PyBool true]>
          {["__positionals" := PyList [PyStr "valid"]]};
        <["strict" := PyBool false]>
          {["__positionals" := PyList [PyStr "valid"]]};
        <["strict" := PyBool true]>
          {["__positionals" := PyList [PyStr "invalid"]]};
        <["strict" := PyBool false]>
          {["__positionals" := PyList [PyStr "invalid"]]} ]
  ∧ ∃ units u,
      batch (TestExpander.__init__ "login with valid and invalid tokens" None)
            (decorate login echo) = inr units
      ∧ units !! 3 = Some u
      ∧ __name__ u = "test_login_with_valid_and_invalid_tokens__case_003"
      ∧ __code__ u [PyNone] ∅
        = inr ([PyNone; PyStr "invalid"], {["strict" := PyBool false]}).
Proof.
  assert (bare echo) as Hbare by (split; reflexivity).
  split; [exact Hbare |].
  destruct (expansion_order
              (TestExpander.__init__ "login with valid and invalid tokens" None)
              login echo Hbare) as (_ & Hfastest & Hunit).
  split; [rewrite (Hfastest _ _ eq_refl); reflexivity |].
  destruct (batch_ok
              (TestExpander.__init__ "login with valid and invalid tokens" None)
              login echo Hbare) as [units Hunits]; [repeat constructor |].
  destruct (Hunit units Hunits 3
              (<["strict" := PyBool false]>
                 {["__positionals" := PyList [PyStr "invalid"]]}) eq_refl)
    as (u & Hu & Hname & Hcode).
  exists units, u. split; [exact Hunits |]. split; [exact Hu |].
  split; [exact Hname |].
  exact (Hcode (PyList [PyStr "invalid"]) [PyStr "invalid"]
               eq_refl eq_refl [PyNone]).
Defined.

(** ** Doc strings (C4) *)

(** C4 does not hold on the code: the text built from the description, the
    index, the total and the doc string of the template is stored under
    the attribute [__doc] of the unit, and the doc string [__doc__] of
    every unit stays the one of the template ([None] when the template has
    none). *)
Theorem generated_doc_misplaced :
  (∀ R test_case (tf : pyfunc R) name doc tags,
     match _create_function_from_testcase test_case tf name doc tags with
     | inr u => __doc__ u = __doc__ tf
     | inl _ => True
     end)
  ∧ (∃ u,
       _create_function_from_testcase {["__positionals" := PyList []]}
         documented "test_login__case_000"
         (get_custom_doc_func "login" 1 documented 0 ∅) [] = inr u
       ∧ __doc__ u = Some "checks the login"
       ∧ __dict__ u !! "__doc"
         = Some (PyStr "login (000/1) parameters:  (checks the login)"))
  ∧ (∃ u,
       _create_function_from_testcase {["__positionals" := PyList []]}
         echo "test_login__case_000"
         (get_custom_doc_func "login" 1 echo 0 ∅) [] = inr u
       ∧ __doc__ u = None
       ∧ __dict__ u !! "__doc" = Some (PyStr "login (000/1) parameters: ")).
Proof.
  split.
  - intros R test_case tf name doc tags.
    destruct (_create_function_from_testcase _ _ _ _ _) as [e|u] eqn:Hu;
      [done |]. by apply create_doc in Hu.
  - split; eexists; (split; [reflexivity |]); by vm_compute.
Qed.

(** ** The call of a unit (C6) *)



(** ** Two groups on one implementation (C7) *)

Lemma in_loop_decorate {R} (ds : list decorator) (f : pyfunc R) :
  bare f → in_loop (decorate ds f) = setattr f "__test__" (PyBool true).
Proof.
  intros [Hc Ha]. unfold in_loop, setattr. simpl.
  destruct (decorate_slots ds f) as (-> & -> & -> & ->).
  by rewrite Hc, Ha.
Qed.

Lemma batch_setattr_test {R} (self : TestExpander.t) (g : pyfunc R)
    (b : bool) :
  batch self (setattr g "__test__" (PyBool b)) = batch self g
  ∧ in_loop (setattr g "__test__" (PyBool b)) = in_loop g.
Proof.
  assert (in_loop (setattr g "__test__" (PyBool b)) = in_loop g) as Hloop.
  { unfold in_loop, setattr. simpl. by rewrite insert_insert_eq. }
  split; [| done]. unfold batch. by rewrite Hloop.
Qed.

(** C7: a successful expansion returns the function without either layer
    stack; a second group declared on the returned function then expands
    exactly as it would on the implementation itself, from its own cases
    and axes alone, so nothing of the first group reaches the second. *)
Theorem stacks_cleared {R} (self : TestExpander.t) (ds : list decorator)
    (f f' : pyfunc R) (frame_locals frame_locals' : scope R) :
  bare f →
  TestExpander.__call__ self (decorate ds f) frame_locals
  = inr (f', frame_locals') →
  tc_test_cases f' = None
  ∧ tc_additional_arguments f' = None
  ∧ (∀ ds2,
       TestExpander.arg_groups (decorate ds2 f')
       = match cases_of ds2 with
         | [] => [ {["__positionals" := PyList []]} ]
         | cs => cs
         end :: reverse (axes_of ds2))
  ∧ (∀ self2 ds2 frame_locals2,
       TestExpander.__call__ self2 (decorate ds2 f') frame_locals2
       = TestExpander.__call__ self2 (decorate ds2 f) frame_locals2).
Proof.
  intros Hbare. rewrite call_batch.
  destruct (batch self (decorate ds f)) as [e|units]; [done |].
  intros [= <- <-]. split; [done |]. split; [done |]. split.
  - intros ds2. by apply arg_groups_decorate.
  - intros self2 ds2 frame_locals2.
    rewrite in_loop_decorate by done. rewrite !call_batch.
    rewrite !decorate_setattr.
    destruct (batch_setattr_test self2
                (setattr (decorate ds2 f) "__test__" (PyBool true)) false)
      as [-> ->].
    destruct (batch_setattr_test self2 (decorate ds2 f) true) as [-> ->].
    done.
Qed.

Lemma stacks_cleared_witness :
  bare echo
  ∧ ∃ f1 locals1 f2 locals2,
      TestExpander.__call__ (TestExpander.__init__ "position in digits" None)
        (decorate position_in_digits echo) ∅ = inr (f1, locals1)
      ∧ bare f1
      ∧ TestExpander.arg_groups (decorate position_in_letters f1)
        = [ [ {["__positionals" := PyList [PyStr "first"]]};
              {["__positionals" := PyList [PyStr "second"]]} ] ]
      ∧ TestExpander.__call__
          (TestExpander.__init__ "position in letters" None)
          (decorate position_in_letters f1) locals1 = inr (f2, locals2)
      ∧ size locals1 = 2 ∧ size locals2 = 4.
Proof.
  assert (bare echo) as Hbare by (split; reflexivity).
  split; [exact Hbare |].
  eexists _, _, _, _. split; [reflexivity |].
  match goal with
  | |- bare ?f1 ∧ _ =>
      destruct (stacks_cleared
                  (TestExpander.__init__ "position in digits" None)
                  position_in_digits echo f1 ∅ _ Hbare eq_refl)
        as (Hc & Ha & Hgroups & Hsame)
  end.
  split; [by split |].
  split; [rewrite Hgroups; reflexivity |].
  split; [rewrite Hsame; reflexivity |].
  by vm_compute.
Defined.

(** ** The discoverability flag (C8) *)





(** ** Declaring an axis (C9, C10) *)

Lemma options_init_keyword (name : string) (value : pyval)
    (values : list pyval) :
  py_iter value = inr values →
  OptionArguments.__init__ [] {[name := value]}
  = inr {| OptionArguments.options := (λ v, {[name := v]}) <$> values |}.
Proof.
  intros Hvalues. unfold OptionArguments.__init__.
  rewrite map_size_singleton, map_to_list_singleton. simpl.
  by rewrite Hvalues.
Qed.

(** C9: with no explicit alternative, a number of keyword arguments other
    than one raises [ValueError] when the axis is constructed; one
    alternative or more make the axis of these alternatives; one keyword
    with an iterable value makes the axis of one single-key alternative
    per value. *)
Theorem options_validation (alternatives : list pydict) (kwargs : pydict) :
  (alternatives = [] → size kwargs ≠ 1 →
   OptionArguments.__init__ alternatives kwargs = inl ValueError)
  ∧ (alternatives ≠ [] →
     OptionArguments.__init__ alternatives kwargs
     = inr {| OptionArguments.options := alternatives |})
  ∧ (∀ name value values,
       alternatives = [] → kwargs = {[name := value]} →
       py_iter value = inr values →
       OptionArguments.__init__ alternatives kwargs
       = inr {| OptionArguments.options :=
                  (λ v, {[name := v]}) <$> values |}).
Proof.
  split; [| split].
  - intros -> Hsize. unfold OptionArguments.__init__.
    by destruct (decide (size kwargs = 1)).
  - intros Hne. by destruct alternatives.
  - intros name value values -> ->. apply options_init_keyword.
Qed.

Lemma options_validation_witness :
  OptionArguments.__init__ [] ∅ = inl ValueError
  ∧ OptionArguments.__init__ []
      (<["action" := PyList [PyStr "reply"]]> {["val" := PyList [PyInt 0]]})
    = inl ValueError
  ∧ OptionArguments.__init__
      [ alt {["action" := PyStr "reply"]};
        alt (<["recipient" := PyStr "john"]> {["action" := PyStr "forward"]}) ]
      ∅
    = inr {| OptionArguments.options :=
               [ {["action" := PyStr "reply"]};
                 <["recipient" := PyStr "john"]>
                   {["action" := PyStr "forward"]} ] |}
  ∧ OptionArguments.__init__ []
      {["action" := PyList [PyStr "reply"; PyStr "forward"]]}
    = inr action_axis.
Proof.
  split; [by apply (options_validation [] ∅) |].
  split; [by apply options_validation |].
  split; [by apply options_validation |].
  exact (proj2 (proj2 (options_validation [] _)) "action"
           (PyList [PyStr "reply"; PyStr "forward"])
           [PyStr "reply"; PyStr "forward"] eq_refl eq_refl eq_refl).
Defined.

Lemma bind_nil {A B} (l : list A) : l ≫= (λ _, @nil B) = [].
Proof. induction l as [|x l IH]; [done |]. exact IH. Qed.

(** A pool without elements leaves no tuple. *)
Lemma product_empty_pool {A} (pools : list (list A)) :
  [] ∈ pools → product pools = [].
Proof.
  induction pools as [|pool pools IH]; [by intros ?%elem_of_nil |].
  rewrite product_cons. intros [<- | Hin]%elem_of_cons; [done |].
  rewrite (IH Hin). apply bind_nil.
Qed.

Lemma elem_of_additional_arguments {R} (ds : list decorator) (f : pyfunc R)
    (self : OptionArguments.t) :
  options self ∈ ds →
  OptionArguments.options self
  ∈ TestExpander.additional_arguments (decorate ds f).
Proof.
  intros Hin. unfold TestExpander.additional_arguments.
  rewrite decorate_tc_additional_arguments.
  assert (OptionArguments.options self ∈ axes_of ds) as Hax.
  { unfold axes_of. apply list_elem_of_omap. by exists (options self). }
  destruct (axes_of ds) as [|axis axes] eqn:E; [by apply elem_of_nil in Hax |].
  simpl. apply elem_of_app. right. by apply elem_of_reverse.
Qed.

(** C10: one keyword whose value is an empty iterable is accepted and
    makes an axis without alternatives; an expansion over a stack that
    holds this axis creates no unit, leaves the scope as it was, and
    returns the function without either layer stack. *)
Theorem empty_axis (name : string) (value : pyval) :
  py_iter value = inr [] →
  ∃ axis,
    OptionArguments.__init__ [] {[name := value]} = inr axis
    ∧ OptionArguments.options axis = []
    ∧ ∀ R (self : TestExpander.t) (ds : list decorator) (f : pyfunc R)
        (frame_locals : scope R),
        options axis ∈ ds →
        batch self (decorate ds f) = inr []
        ∧ ∃ f', TestExpander.__call__ self (decorate ds f) frame_locals
                = inr (f', frame_locals)
                ∧ tc_test_cases f' = None
                ∧ tc_additional_arguments f' = None.
Proof.
  intros Hempty. exists {| OptionArguments.options := [] |}.
  split.
  { by rewrite (options_init_keyword name value [] Hempty). }
  split; [done |].
  intros R self ds f frame_locals Hin.
  assert (batch self (decorate ds f) = inr []) as Hbatch.
  { unfold batch, TestExpander.augmented_test_cases.
    rewrite product_empty_pool; [done |].
    unfold TestExpander.arg_groups. apply elem_of_cons. right.
    by apply (elem_of_additional_arguments ds f
                {| OptionArguments.options := [] |}). }
  split; [exact Hbatch |].
  eexists. rewrite call_batch, Hbatch. by split.
Qed.

Lemma empty_axis_witness :
  ∃ axis,
    OptionArguments.__init__ [] {["val" := PyList []]} = inr axis
    ∧ ∃ f', TestExpander.__call__ (TestExpander.__init__ "no value" None)
              (decorate [tc [PyStr "first"] ∅; options axis] echo) ∅
            = inr (f', ∅)
            ∧ bare f'.
Proof.
  destruct (empty_axis "val" (PyList []) eq_refl)
    as (axis & Hinit & _ & Hexpand).
  exists axis. split; [exact Hinit |].
  destruct (Hexpand _ (TestExpander.__init__ "no value" None)
              [tc [PyStr "first"] ∅; options axis] echo ∅)
    as (_ & f' & Hcall & Hc & Ha).
  { apply elem_of_cons. right. apply list_elem_of_singleton. reflexivity. }
  exists f'. split; [exact Hcall |]. by split.
Defined.

(** * Further properties of the code *)

(** ** Common arguments *)

(** [common] with its keywords adds an axis of one alternative: applied to a
    function in any state, it leaves the number of resolved cases as it
    was and updates every resolved case with its keywords, which replace
    the values of the same names. *)
Theorem common_layer {R} (kwargs : pydict) (g : pyfunc R) :
  TestExpander.augmented_test_cases
    (CommonArguments.__call__ (CommonArguments.__init__ kwargs) g)
  = (λ test_case, kwargs ∪ test_case) <$> TestExpander.augmented_test_cases g
  ∧ length (TestExpander.augmented_test_cases
              (CommonArguments.__call__ (CommonArguments.__init__ kwargs) g))
    = length (TestExpander.augmented_test_cases g).
Proof.
  assert (TestExpander.augmented_test_cases
            (CommonArguments.__call__ (CommonArguments.__init__ kwargs) g)
          = (λ test_case, kwargs ∪ test_case)
              <$> TestExpander.augmented_test_cases g) as Heq.
  { rewrite !augmented_test_cases_loops.
    change (TestExpander.original_test_cases
              (CommonArguments.__call__ (CommonArguments.__init__ kwargs) g))
      with (TestExpander.original_test_cases g).
    change (TestExpander.additional_arguments
              (CommonArguments.__call__ (CommonArguments.__init__ kwargs) g))
      with (TestExpander.additional_arguments g ++ [[kwargs]]).
    rewrite fmap_bind. apply list_bind_ext; [| done]. intros c.
    rewrite product_snoc, bind_bind, fmap_bind.
    apply list_bind_ext; [| done]. intros t.
    rewrite !bind_singleton. simpl.
    by rewrite app_comm_cons, merge_dicts_snoc. }
  split; [exact Heq |]. by rewrite Heq, length_fmap.
Qed.

(** ** Sanitized names *)

Lemma length_re_sub_unsafe (m : bool) (s : string) :
  String.length (re_sub_unsafe m s) ≤ String.length s.
Proof.
  revert m. induction s as [|c s IH]; intros m; simpl; [done |].
  destruct (is_safe c); simpl.
  - specialize (IH false). lia.
  - destruct m; simpl; specialize (IH true); lia.
Qed.

(** Sanitizing is idempotent and never makes a description longer. *)
Theorem to_safe_name_idempotent (s : string) :
  to_safe_name (to_safe_name s) = to_safe_name s
  ∧ String.length (to_safe_name s) ≤ String.length s.
Proof.
  split; [| apply length_re_sub_unsafe].
  apply re_sub_unsafe_safe, to_safe_name_all_safe.
Qed.

Lemma all_chars_append (p : ascii → bool) (a b : string) :
  all_chars p (a +:+ b) = all_chars p a && all_chars p b.
Proof.
  induction a as [|x a IH]; [done |].
  rewrite append_cons. simpl. by rewrite IH, andb_assoc.
Qed.

Lemma all_safe_string_of_uint (d : Decimal.uint) :
  all_chars is_safe (NilEmpty.string_of_uint d) = true.
Proof. induction d; simpl; auto. Qed.

Lemma all_safe_format_03d (n : nat) : all_chars is_safe (format_03d n) = true.
Proof.
  unfold format_03d, str_of_nat. rewrite all_chars_append.
  rewrite all_safe_string_of_uint, andb_true_r.
  induction (3 - _) as [|k IH]; [done | exact IH].
Qed.

Lemma prefix_cons_inv (a : ascii) (s1 s : string) :
  String.prefix (String a s1) s = true →
  ∃ s', s = String a s' ∧ String.prefix s1 s' = true.
Proof.
  destruct s as [|b s']; [done |].
  change (String.prefix (String a s1) (String b s'))
    with (if ascii_dec a b then String.prefix s1 s' else false).
  destruct (ascii_dec a b) as [<-|]; [| done]. eauto.
Qed.

Lemma prefix_test_inv (s : string) :
  String.prefix "test" s = true →
  ∃ s', s = String "t" (String "e" (String "s" (String "t" s'))).
Proof.
  intros (s1 & -> & (s2 & -> & (s3 & -> & (s4 & -> & _)%prefix_cons_inv)
    %prefix_cons_inv)%prefix_cons_inv)%prefix_cons_inv.
  by exists s4.
Qed.

Lemma prefix_test_intro (rest : string) :
  String.prefix "test" (String "t" (String "e" (String "s" (String "t" rest))))
  = true.
Proof. by destruct rest. Qed.

(** Every generated name starts with [test] and is made of characters of
    [a-zA-Z0-9_] only, whatever the description. *)
Theorem custom_name_identifier {R} (description : string) (f : pyfunc R)
    (index : nat) (param : pydict) :
  String.prefix "test" (get_custom_name_func description f index param) = true
  ∧ all_chars is_safe (get_custom_name_func description f index param) = true.
Proof.
  unfold get_custom_name_func. split.
  - destruct (String.prefix "test" description) eqn:Hp; [| done].
    apply prefix_test_inv in Hp as [s' ->].
    apply (prefix_test_intro
             (re_sub_unsafe false s' +:+ "__case_" +:+ format_03d index)).
  - rewrite !all_chars_append, to_safe_name_all_safe, all_safe_format_03d.
    by destruct (String.prefix "test" description).
Qed.

(** ** Merging dictionaries *)

Lemma merge_dicts_app (l1 l2 : list pydict) :
  merge_dicts (l1 ++ l2) = merge_dicts l2 ∪ merge_dicts l1.
Proof.
  induction l2 as [|d l2 IH] using rev_ind.
  - rewrite app_nil_r. symmetry. apply (left_id_L ∅ (∪)).
  - by rewrite app_assoc, !merge_dicts_snoc, IH, (assoc_L (∪)).
Qed.

(** Merging composes: the merge of two lists one after the other is the
    merge of the second on top of the merge of the first; a key is bound
    by the merge exactly when one of the dictionaries binds it, and the
    merge of no dictionary is empty. *)
Theorem merge_dicts_compose (l1 l2 : list pydict) (k : string) :
  merge_dicts (l1 ++ l2) = merge_dicts l2 ∪ merge_dicts l1
  ∧ (is_Some (merge_dicts l1 !! k)
     ↔ Exists (λ d : pydict, is_Some (d !! k)) l1)
  ∧ merge_dicts [] = ∅.
Proof.
  split; [apply merge_dicts_app |]. split; [| done].
  induction l1 as [|d l1 IH] using rev_ind.
  - rewrite Exists_nil. split; [| done].
    intros [v Hv]. change (merge_dicts []) with (∅ : pydict) in Hv.
    by rewrite lookup_empty in Hv.
  - rewrite merge_dicts_snoc, Exists_app, Exists_cons, Exists_nil.
    rewrite lookup_union_is_Some, IH. tauto.
Qed.

(** ** Errors of the constructors *)

(** One keyword whose value cannot be iterated over makes the constructor
    of an axis raise [TypeError], not the validation error. *)
Theorem options_not_iterable (name : string) (value : pyval) :
  (∀ l, value ≠ PyList l) → (∀ s, value ≠ PyStr s) →
  OptionArguments.__init__ [] {[name := value]} = inl TypeError.
Proof.
  intros Hlist Hstr. unfold OptionArguments.__init__.
  rewrite map_size_singleton, map_to_list_singleton. simpl.
  destruct value; try done; [by destruct (Hstr s) | by destruct (Hlist l)].
Qed.

Lemma options_not_iterable_witness :
  OptionArguments.__init__ [] {["val" := PyInt 3]} = inl TypeError.
Proof. by apply options_not_iterable. Defined.


(** ** The template after an expansion *)

(** An expansion leaves the name, the doc string and the code of the
    implementation as they were; of its attributes it changes the flag
    [__test__] only, which is false afterward: no tag and no generated
    text is written on the implementation. *)
Theorem expansion_template {R} (self : TestExpander.t) (f f' : pyfunc R)
    (frame_locals frame_locals' : scope R) :
  TestExpander.__call__ self f frame_locals = inr (f', frame_locals') →
  __name__ f' = __name__ f
  ∧ __doc__ f' = __doc__ f
  ∧ (∀ arg kwargs, __code__ f' arg kwargs = __code__ f arg kwargs)
  ∧ __dict__ f' = <["__test__" := PyBool false]> (__dict__ f).
Proof.
  rewrite call_batch. destruct (batch self f) as [e|units]; [done |].
  intros [= <- _]. repeat split; try done.
  simpl. by rewrite insert_insert_eq.
Qed.

Lemma expansion_template_witness :
  ∃ f' frame_locals',
    TestExpander.__call__ (TestExpander.__init__ "login" (Some ["slow"]))
      (decorate login documented) ∅ = inr (f', frame_locals')
    ∧ __name__ f' = "_"
    ∧ __doc__ f' = Some "checks the login"
    ∧ __dict__ f' = {["__test__" := PyBool false]}.
Proof.
  eexists _, _. split; [reflexivity |].
  match goal with
  | |- __name__ ?f' = _ ∧ _ =>
      destruct (expansion_template
                  (TestExpander.__init__ "login" (Some ["slow"]))
                  (decorate login documented) f' ∅ _ eq_refl)
        as (Hname & Hdoc & _ & Hdict)
  end.
  split; [exact Hname |]. split; [exact Hdoc |].
  rewrite Hdict. reflexivity.
Defined.

(** ** The attributes of a unit *)




Lemma units_from_lookup_unit {R} (tf : pyfunc R)
    (naming_func doc_func : pyfunc R → nat → pydict → string)
    (tags : list string) (index : nat) (test_cases : list pydict)
    (units : list (pyfunc R)) (j : nat) (u : pyfunc R) :
  units_from tf naming_func doc_func tags index test_cases = inr units →
  units !! j = Some u →
  ∃ test_case,
    test_cases !! j = Some test_case
    ∧ _create_function_from_testcase test_case tf
        (naming_func tf (index + j) test_case)
        (doc_func tf (index + j) test_case) tags = inr u.
Proof.
  intros [Hlen Hall]%units_from_lookup Hu.
  destruct (lookup_lt_is_Some_2 test_cases j) as [test_case Hj].
  { rewrite <- Hlen. by eapply lookup_lt_Some. }
  destruct (Hall j test_case Hj) as (u' & Hu' & Hcreate).
  rewrite Hu in Hu'. injection Hu' as <-. by exists test_case.
Qed.



(** ** Errors of an expansion *)









(** ** The scope *)

Lemma bind_units_is_Some {R} (frame_locals : scope R)
    (units : list (pyfunc R)) (name : string) :
  is_Some (bind_units frame_locals units !! name)
  ↔ is_Some (frame_locals !! name) ∨ name ∈ __name__ <$> units.
Proof.
  induction units as [|u units IH] using rev_ind.
  - simpl. split; [by left |]. by intros [? | ?%elem_of_nil].
  - rewrite bind_units_snoc, fmap_app, elem_of_app. simpl.
    rewrite list_elem_of_singleton.
    destruct (decide (__name__ u = name)) as [<-|Hne].
    + rewrite lookup_insert_eq. split; [by right; right | by eexists].
    + rewrite lookup_insert_ne, IH by done. intuition congruence.
Qed.

Lemma batch_names {R} (self : TestExpander.t) (f : pyfunc R)
    (units : list (pyfunc R)) (name : string) :
  batch self f = inr units →
  name ∈ __name__ <$> units
  ↔ ∃ j, j < length (TestExpander.augmented_test_cases f)
         ∧ name = get_custom_name_func (TestExpander.desc self) f j ∅.
Proof.
  intros Hunits. rewrite (units_from_names _ _ _ _ _ _ _ Hunits).
  rewrite list_elem_of_lookup. split.
  - intros [j Hj]. rewrite list_lookup_imap in Hj.
    destruct (TestExpander.augmented_test_cases f !! j) as [tcj|] eqn:E;
      [| done].
    injection Hj as <-. exists j. split; [by eapply lookup_lt_Some | done].
  - intros (j & Hj & ->). exists j. rewrite list_lookup_imap.
    destruct (lookup_lt_is_Some_2 _ _ Hj) as [tcj ->]. done.
Qed.

(** An expansion only adds names to the scope or rebinds them: afterward
    a name is bound exactly when it was bound before or is the generated
    name of an index below the number of resolved cases. *)
Theorem scope_after_expansion {R} (self : TestExpander.t) (f f' : pyfunc R)
    (frame_locals frame_locals' : scope R) (name : string) :
  TestExpander.__call__ self f frame_locals = inr (f', frame_locals') →
  is_Some (frame_locals' !! name)
  ↔ is_Some (frame_locals !! name)
    ∨ ∃ j, j < length (TestExpander.augmented_test_cases f)
           ∧ name = get_custom_name_func (TestExpander.desc self) f j ∅.
Proof.
  rewrite call_batch.
  destruct (batch self f) as [e|units] eqn:Hunits; [done |].
  intros [= _ <-]. rewrite bind_units_is_Some.
  by rewrite (batch_names self f units name Hunits).
Qed.

Lemma scope_after_expansion_witness :
  ∃ f' frame_locals',
    TestExpander.__call__ (TestExpander.__init__ "login" None)
      (decorate login echo) ∅ = inr (f', frame_locals')
    ∧ is_Some (frame_locals' !! "test_login__case_003")
    ∧ ¬ is_Some (frame_locals' !! "test_login__case_004").
Proof.
  eexists _, _. split; [reflexivity |].
  split.
  - apply (scope_after_expansion (TestExpander.__init__ "login" None)
             (decorate login echo) _ ∅ _ "test_login__case_003" eq_refl).
    right. exists 3. split; [simpl; lia | reflexivity].
  - intros H.
    apply (scope_after_expansion (TestExpander.__init__ "login" None)
             (decorate login echo) _ ∅ _ "test_login__case_004" eq_refl) in H.
    destruct H as [[u Hu] | (j & Hj & Hname)].
    + by rewrite lookup_empty in Hu.
    + simpl in Hj.
      assert (get_custom_name_func "login" (decorate login echo) 4 ∅
              = get_custom_name_func "login" (decorate login echo) j ∅)
        as Heq by exact Hname.
      apply custom_name_inj in Heq. lia.
Defined.

(** Two expansions with the same description on one scope generate the
    same names: the unit of the second batch replaces the unit of the
    first at every index that both have, and the units of the first at
    higher indexes stay bound. *)
Theorem same_description_overwrites {R} (self1 self2 : TestExpander.t)
    (g1 g2 f1 f2 : pyfunc R) (locals0 locals1 locals2 : scope R) :
  TestExpander.desc self1 = TestExpander.desc self2 →
  TestExpander.__call__ self1 g1 locals0 = inr (f1, locals1) →
  TestExpander.__call__ self2 g2 locals1 = inr (f2, locals2) →
  ∃ units1 units2,
    batch self1 g1 = inr units1
    ∧ batch self2 g2 = inr units2
    ∧ (∀ j u1, units1 !! j = Some u1 → locals1 !! __name__ u1 = Some u1)
    ∧ (∀ j u1 u2, units1 !! j = Some u1 → units2 !! j = Some u2 →
         __name__ u2 = __name__ u1 ∧ locals2 !! __name__ u1 = Some u2)
    ∧ (∀ j u1, units1 !! j = Some u1 → length units2 ≤ j →
         locals2 !! __name__ u1 = Some u1).
Proof.
  intros Hdesc. rewrite !call_batch.
  destruct (batch self1 g1) as [e|units1] eqn:H1; [done |].
  destruct (batch self2 g2) as [e|units2] eqn:H2; [done |].
  intros [= _ <-] [= _ <-]. exists units1, units2.
  split; [done |]. split; [done |].
  assert (∀ j u1, units1 !! j = Some u1 →
            __name__ u1
            = get_custom_name_func (TestExpander.desc self1) g1 j ∅) as Hn1.
  { intros j u1 Hu1.
    destruct (units_from_lookup_unit _ _ _ _ _ _ _ _ _ H1 Hu1)
      as (tcj & _ & Hc). by apply create_name in Hc. }
  assert (∀ j u2, units2 !! j = Some u2 →
            __name__ u2
            = get_custom_name_func (TestExpander.desc self1) g1 j ∅) as Hn2.
  { intros j u2 Hu2.
    destruct (units_from_lookup_unit _ _ _ _ _ _ _ _ _ H2 Hu2)
      as (tcj & _ & Hc). apply create_name in Hc. by rewrite Hdesc. }
  assert (∀ j u1, units1 !! j = Some u1 →
            bind_units locals0 units1 !! __name__ u1 = Some u1) as Hb1.
  { intros j u1 Hu1. apply bind_units_lookup.
    - by eapply units_from_NoDup.
    - by eapply list_elem_of_lookup_2. }
  split; [exact Hb1 |]. split.
  - intros j u1 u2 Hu1 Hu2.
    assert (__name__ u2 = __name__ u1) as Heq
      by (by rewrite (Hn1 j u1), (Hn2 j u2)).
    split; [done |]. rewrite <- Heq. apply bind_units_lookup.
    + by eapply units_from_NoDup.
    + by eapply list_elem_of_lookup_2.
  - intros j u1 Hu1 Hlen. rewrite bind_units_lookup_other; [by eapply Hb1 |].
    intros (u2 & Heq & [i Hi]%list_elem_of_lookup)%list_elem_of_fmap.
    rewrite (Hn1 j u1 Hu1), (Hn2 i u2 Hi) in Heq.
    apply custom_name_inj in Heq. apply lookup_lt_Some in Hi. lia.
Qed.

Lemma same_description_overwrites_witness :
  ∃ f1 locals1 f2 locals2 u2,
    TestExpander.__call__ (TestExpander.__init__ "position" None)
      (decorate position_in_digits echo) ∅ = inr (f1, locals1)
    ∧ TestExpander.__call__ (TestExpander.__init__ "position" None)
        (decorate position_in_letters f1) locals1 = inr (f2, locals2)
    ∧ size locals2 = 2
    ∧ locals2 !! "test_position__case_000" = Some u2
    ∧ __code__ u2 [] ∅ = inr ([PyStr "first"], ∅).
Proof.
  pose (f1 := setattr (in_loop (decorate position_in_digits echo))
                      "__test__" (PyBool false)).
  destruct (same_description_overwrites
              (TestExpander.__init__ "position" None)
              (TestExpander.__init__ "position" None)
              (decorate position_in_digits echo)
              (decorate position_in_letters f1) f1 _ ∅ _ _
              eq_refl eq_refl eq_refl)
    as (units1 & units2 & Hu1 & Hu2 & _ & Hover & _).
  vm_compute in Hu1. injection Hu1 as <-.
  vm_compute in Hu2. injection Hu2 as <-.
  destruct (Hover 0 _ _ eq_refl eq_refl) as [_ Hsecond].
  exists f1. eexists _, _, _, _.
  split; [reflexivity |]. split; [reflexivity |].
  split; [by vm_compute |]. split; [exact Hsecond | reflexivity].
Defined.

(** ** The layers of a stack *)

Lemma pyfunc_ext {R} (a b : pyfunc R) :
  __name__ a = __name__ b → __doc__ a = __doc__ b →
  __dict__ a = __dict__ b → tc_test_cases a = tc_test_cases b →
  tc_additional_arguments a = tc_additional_arguments b →
  __code__ a = __code__ b → a = b.
Proof. destruct a, b. simpl. by intros -> -> -> -> -> ->. Qed.

(** Only the order among the case decorators and the order among the axis
    decorators matter: two stacks that declare the same cases in the same
    order and the same axes in the same order, however interleaved, leave
    the function in the same state, so they expand alike. *)
Theorem decorator_interleaving {R} (ds ds' : list decorator) (f : pyfunc R) :
  cases_of ds = cases_of ds' → axes_of ds = axes_of ds' →
  decorate ds f = decorate ds' f
  ∧ ∀ self frame_locals,
      TestExpander.__call__ self (decorate ds f) frame_locals
      = TestExpander.__call__ self (decorate ds' f) frame_locals.
Proof.
  intros Hcases Haxes.
  assert (decorate ds f = decorate ds' f) as Heq.
  { destruct (decorate_slots ds f) as (Hn & Hd & Hdict & Hc).
    destruct (decorate_slots ds' f) as (Hn' & Hd' & Hdict' & Hc').
    apply pyfunc_ext; try congruence.
    - by rewrite !decorate_tc_test_cases, Hcases.
    - by rewrite !decorate_tc_additional_arguments, Haxes. }
  split; [exact Heq |]. intros self frame_locals. by rewrite Heq.
Qed.

Lemma decorator_interleaving_witness :
  decorate [ tc [PyStr "valid"] ∅; options action_axis;
             tc [PyStr "invalid"] ∅; options val_axis ] echo
  = decorate [ options action_axis; options val_axis;
               tc [PyStr "valid"] ∅; tc [PyStr "invalid"] ∅ ] echo.
Proof.
  by apply (decorator_interleaving
              [ tc [PyStr "valid"] ∅; options action_axis;
                tc [PyStr "invalid"] ∅; options val_axis ]
              [ options action_axis; options val_axis;
                tc [PyStr "valid"] ∅; tc [PyStr "invalid"] ∅ ] echo).
Defined.

(** Layers declared on a function that still carries layers add to them:
    the axes go after the ones it has, and the cases come, in the order
    of the text, before the ones it has. *)
Theorem layers_accumulate {R} (ds : list decorator) (g : pyfunc R) :
  TestExpander.additional_arguments (decorate ds g)
  = TestExpander.additional_arguments g ++ reverse (axes_of ds)
  ∧ (∀ stack, tc_test_cases g = Some stack →
       TestExpander.original_test_cases (decorate ds g)
       = cases_of ds ++ TestExpander.original_test_cases g).
Proof.
  unfold TestExpander.additional_arguments, TestExpander.original_test_cases.
  rewrite decorate_tc_additional_arguments, decorate_tc_test_cases. split.
  - destruct (axes_of ds); simpl; [by rewrite app_nil_r | done].
  - intros stack ->. destruct (cases_of ds) as [|c cs] eqn:E; [done |].
    simpl. by rewrite reverse_app, reverse_involutive.
Qed.

Lemma layers_accumulate_witness :
  TestExpander.original_test_cases
    (decorate position_in_letters (decorate position_in_digits echo))
  = [ {["__positionals" := PyList [PyStr "first"]]};
      {["__positionals" := PyList [PyStr "second"]]};
      {["__positionals" := PyList [PyStr "1"]]};
      {["__positionals" := PyList [PyStr "2"]]} ].
Proof.
  destruct (layers_accumulate position_in_letters
              (decorate position_in_digits echo)) as [_ Hcases].
  by rewrite (Hcases _ eq_refl).
Defined.

(** ** The reserved key *)

(** The reserved key is not protected from the axes: when an alternative
    of the tuple binds [__positionals], the unit passes, after the
    positionals of the runner, the values of the last alternative that
    binds it, and not the positionals that the case declared. *)
Theorem positionals_of_last_binding {R} (self : TestExpander.t)
    (f : pyfunc R) (units : list (pyfunc R)) (j : nat) (u : pyfunc R)
    (c alternative : pydict) (before after : list pydict)
    (value : pyval) (positionals : list pyval) :
  batch self f = inr units → units !! j = Some u →
  product (TestExpander.arg_groups f) !! j
  = Some (c :: before ++ alternative :: after) →
  alternative !! "__positionals" = Some value →
  Forall (λ later : pydict, later !! "__positionals" = None) after →
  py_iter value = inr positionals →
  ∀ arg, __code__ u arg ∅
         = __code__ f (arg ++ positionals)
             (delete "__positionals"
                (merge_dicts (c :: before ++ alternative :: after))).
Proof.
  intros Hunits Hu Ht Hv Hafter Hp arg.
  destruct (units_from_lookup_unit _ _ _ _ _ _ _ _ _ Hunits Hu)
    as (test_case & Hj & Hcreate).
  unfold TestExpander.augmented_test_cases in Hj.
  rewrite list_lookup_fmap, Ht in Hj. injection Hj as <-.
  rewrite (create_code_inv _ _ _ _ _ _ value positionals Hcreate); [done | | done].
  by apply (merge_dicts_lookup_last (c :: before)).
Qed.

Lemma positionals_of_last_binding_witness :
  ∃ units u,
    batch (TestExpander.__init__ "override" None)
          (decorate override_axis echo) = inr units
    ∧ units !! 0 = Some u
    ∧ __code__ u [PyStr "self"] ∅
      = inr ([PyStr "self"; PyStr "other"], {["val" := PyInt 1]}).
Proof.
  assert (∃ units u,
            batch (TestExpander.__init__ "override" None)
                  (decorate override_axis echo) = inr units
            ∧ units !! 0 = Some u) as (units & u & Hbatch & Hu)
    by (eexists _, _; split; reflexivity).
  exists units, u. split; [exact Hbatch |]. split; [exact Hu |].
  rewrite (positionals_of_last_binding _ _ units 0 u
             (<["__positionals" := PyList [PyStr "first"]]>
                {["val" := PyInt 1]})
             {["__positionals" := PyList [PyStr "other"]]} [] []
             (PyList [PyStr "other"]) [PyStr "other"]
             Hbatch Hu eq_refl eq_refl (Forall_nil_2 _) eq_refl).
  reflexivity.
Defined.

